(** * SystemDiagramCard: the graph built for a system's diagram

    Shallow embedding of
    [plugins/catalog/src/components/SystemDiagramCard/SystemDiagramCard.tsx].

    The component keeps two local arrays, [systemNodes] and [systemEdges],
    and fills them with [push]; the arrays are threaded here as an explicit
    state of type [Graph].  JavaScript strings are modelled as [string],
    that is as sequences of code units below 256 (the Latin-1 block), which
    covers every character a catalog entity reference may contain. *)

From Stdlib Require Import String Ascii List Bool NArith Lia Permutation.
Import ListNotations.
Open Scope string_scope.

(** ** JavaScript string and array primitives used by the component *)

Module Js.

(** Lower-casing of one code unit of the Latin-1 block, as the Unicode
    default case conversion does it (the [en-US] locale has no tailoring):
    [A]-[Z] and U+00C0-U+00DE, the multiplication sign U+00D7 apart, move
    up by 32; every other code unit stays. *)
Definition lowerChar (c : ascii) : ascii :=
  let n := N_of_ascii c in
  if ((65 <=? n) && (n <=? 90))%N
     || ((192 <=? n) && (n <=? 222) && negb (n =? 215))%N
  then ascii_of_N (n + 32)
  else c.

(** [s.toLocaleLowerCase('en-US')] *)
Fixpoint toLocaleLowerCase (s : string) : string :=
  match s with
  | EmptyString => EmptyString
  | String c s' => String (lowerChar c) (toLocaleLowerCase s')
  end.

(** [startsWith p s] is [Some rest] when [s = p ++ rest]. *)
Fixpoint startsWith (p s : string) : option string :=
  match p with
  | EmptyString => Some s
  | String a p' =>
      match s with
      | EmptyString => None
      | String b s' => if Ascii.eqb a b then startsWith p' s' else None
      end
  end.

(** [s.replace(searchValue, replaceValue)] with a string pattern: only the
    leftmost occurrence is replaced.  The replacement is taken literally,
    which is what JavaScript does when it holds no [$]. *)
Fixpoint replace (searchValue replaceValue s : string) : string :=
  match startsWith searchValue s with
  | Some rest => replaceValue ++ rest
  | None =>
      match s with
      | EmptyString => EmptyString
      | String c s' => String c (replace searchValue replaceValue s')
      end
  end.

(** [s.includes(c)] for a one-character [c]. *)
Fixpoint includes (c : ascii) (s : string) : bool :=
  match s with
  | EmptyString => false
  | String b s' => Ascii.eqb c b || includes c s'
  end.

(** [arr.push(x)] *)
Definition push {A : Type} (arr : list A) (x : A) : list A := arr ++ [x].

(** [arr.forEach(f)], where [f] updates the state [S]. *)
Definition forEach {A S : Type} (arr : list A) (f : S -> A -> S) (s : S) : S :=
  fold_left f arr s.

End Js.

(** ** The catalog model the component imports *)

Module Catalog.

(** [EntityName]: the target of a relation. *)
Record EntityName : Type := mkEntityName
  { target_kind : string;
    target_namespace : string;
    target_name : string }.

Record EntityRelation : Type := mkRelation
  { type : string;
    target : EntityName }.

Record EntityMeta : Type := mkMeta
  { namespace : option string;
    name : string }.

Record Entity : Type := mkEntity
  { kind : string;
    metadata : EntityMeta;
    relations : list EntityRelation }.

(** The argument of [simplifiedEntityName]: an [Entity] or a compound
    name.  Both call sites of the second form pass an [EntityName], whose
    kind is present. *)
Inductive EntityRefLike : Type :=
| OfEntity (e : Entity)
| OfName (kind : string) (namespace : option string) (name : string).

Definition ofTarget (t : EntityName) : EntityRefLike :=
  OfName (target_kind t) (Some (target_namespace t)) (target_name t).

Definition refKind (r : EntityRefLike) : string :=
  match r with OfEntity e => kind e | OfName k _ _ => k end.
Definition refNamespace (r : EntityRefLike) : option string :=
  match r with OfEntity e => namespace (metadata e) | OfName _ ns _ => ns end.
Definition refName (r : EntityRefLike) : string :=
  match r with OfEntity e => name (metadata e) | OfName _ _ n => n end.

(** Modelled from the spec: the constant for the well-known default
    namespace, declared in [@backstage/catalog-model], which is not among
    the sources. *)
Definition ENTITY_DEFAULT_NAMESPACE : string := "default".

(** Modelled from the spec: the relation-type constants of
    [@backstage/catalog-model], not among the sources.  The spec names the
    three relation kinds; only their being pairwise distinct matters. *)
Definition RELATION_PART_OF : string := "partOf".
Definition RELATION_PROVIDES_API : string := "providesApi".
Definition RELATION_DEPENDS_ON : string := "dependsOn".

(** Modelled from the spec: [serializeEntityRef] of
    [@backstage/catalog-model], not among the sources.  The spec gives the
    pattern [kind:namespace/name], the namespace being optional and
    defaulting to the well-known value. *)
Definition serializeEntityRef (r : EntityRefLike) : string :=
  refKind r ++ ":"
    ++ match refNamespace r with
       | Some ns => ns
       | None => ENTITY_DEFAULT_NAMESPACE
       end
    ++ "/" ++ refName r.

(** Modelled from the spec: [getEntityRelations] of
    [@backstage/plugin-catalog-react], not among the sources.  It resolves
    the targets of the entity's outbound relations of one relation type, in
    relation order, optionally restricted to targets of one kind.  Kinds are
    compared without regard to case: the component asks for [domain] while
    the catalog writes the kind [Domain]. *)
Definition getEntityRelations (entity : Entity) (relationType : string)
    (filterKind : option string) : list EntityName :=
  let entityNames :=
    map target
      (filter (fun r => String.eqb (type r) relationType) (relations entity)) in
  match filterKind with
  | Some k =>
      filter (fun e => String.eqb (Js.toLocaleLowerCase (target_kind e))
                                  (Js.toLocaleLowerCase k))
             entityNames
  | None => entityNames
  end.

End Catalog.

Import Catalog.

(** ** The component *)

(** Simplify the diagram output by hiding only the default namespace. *)
Definition simplifiedEntityName (ref : EntityRefLike) : string :=
  Js.replace ":default/" ":"
    (Js.toLocaleLowerCase (serializeEntityRef ref)).

Record Node : Type := mkNode { id : string }.

Record Edge : Type := mkEdge { from : string; to : string; label : string }.

(** The two arrays of the component. *)
Record Graph : Type := mkGraph
  { systemNodes : list Node;
    systemEdges : list Edge }.

Definition pushNode (g : Graph) (n : Node) : Graph :=
  {| systemNodes := Js.push (systemNodes g) n;
     systemEdges := systemEdges g |}.

Definition pushEdge (g : Graph) (e : Edge) : Graph :=
  {| systemNodes := systemNodes g;
     systemEdges := Js.push (systemEdges g) e |}.

(** One forEach over relation targets, pushing an edge from [source] with a
    fixed label for each. *)
Definition pushRelationEdges (source : EntityRefLike) (lbl : string)
    (targets : list EntityName) (g : Graph) : Graph :=
  Js.forEach targets
    (fun g foundRelation =>
       pushEdge g {| from := simplifiedEntityName source;
                     to := simplifiedEntityName (ofTarget foundRelation);
                     label := lbl |})
    g.

(** The body of the loop over [catalogResponse.items]. *)
Definition addCatalogItem (g : Graph) (catalogItem : Entity) : Graph :=
  let g := pushNode g {| id := simplifiedEntityName (OfEntity catalogItem) |} in
  let catalogItemRelations_partOf :=
    getEntityRelations catalogItem RELATION_PART_OF None in
  let g := pushRelationEdges (OfEntity catalogItem) "part of"
             catalogItemRelations_partOf g in
  let catalogItemRelations_providesApi :=
    getEntityRelations catalogItem RELATION_PROVIDES_API None in
  let g := pushRelationEdges (OfEntity catalogItem) "provides API"
             catalogItemRelations_providesApi g in
  let catalogItemRelations_dependsOn :=
    getEntityRelations catalogItem RELATION_DEPENDS_ON None in
  pushRelationEdges (OfEntity catalogItem) "depends on"
    catalogItemRelations_dependsOn g.

(** The arrays as [SystemDiagramCard] has filled them when it reaches its
    [return]; [catalogResponse] is the value of the fetch, absent while it is
    loading or after it failed, and otherwise the [items] of the response. *)
Definition systemDiagram (entity : Entity)
    (catalogResponse : option (list Entity)) : Graph :=
  let currentSystemNode := simplifiedEntityName (OfEntity entity) in
  let g := {| systemNodes := []; systemEdges := [] |} in
  (* pick out the system itself *)
  let g := pushNode g {| id := currentSystemNode |} in
  (* check if the system has an assigned domain *)
  let catalogItemDomain :=
    getEntityRelations entity RELATION_PART_OF (Some "domain") in
  let g := Js.forEach catalogItemDomain
             (fun g foundDomain =>
                pushNode g {| id := simplifiedEntityName (ofTarget foundDomain) |})
             g in
  let g := Js.forEach catalogItemDomain
             (fun g foundDomain =>
                pushEdge g {| from := currentSystemNode;
                              to := simplifiedEntityName (ofTarget foundDomain);
                              label := "part of" |})
             g in
  match catalogResponse with
  | Some items => Js.forEach items addCatalogItem g
  | None => g
  end.

(** The graph construction on resolved data: the root entity and the ordered
    list of related entities. *)
Definition buildGraph (rootEntity : Entity) (relatedEntities : list Entity)
    : Graph :=
  systemDiagram rootEntity (Some relatedEntities).

(** What the component renders. *)
Inductive Rendered : Type :=
| Progress
| ResponseErrorPanel (error : string)
| InfoCard (nodes : list Node) (edges : list Edge).

Record AsyncState : Type := mkAsync
  { loading : bool;
    error : option string;
    value : option (list Entity) }.

Definition SystemDiagramCard (entity : Entity) (st : AsyncState) : Rendered :=
  let g := systemDiagram entity (value st) in
  if loading st then Progress
  else match error st with
       | Some err => ResponseErrorPanel err
       | None => InfoCard (systemNodes g) (systemEdges g)
       end.

(** ** The outcome in closed form

    What the spec says the construction returns, written as lists: the
    sequences in insertion order. *)

(** The normalized id of an entity. *)
Definition entityId (e : Entity) : string :=
  simplifiedEntityName (OfEntity e).

Definition targetId (t : EntityName) : string :=
  simplifiedEntityName (ofTarget t).

(** The root's part-of relations restricted to domain-kind targets. *)
Definition rootDomains (rootEntity : Entity) : list EntityName :=
  getEntityRelations rootEntity RELATION_PART_OF (Some "domain").

Definition relationEdges (source : EntityRefLike) (lbl : string)
    (targets : list EntityName) : list Edge :=
  map (fun t => mkEdge (simplifiedEntityName source) (targetId t) lbl) targets.

(** The edges of one related entity: part-of, then provides-API, then
    depends-on, each group in relation order. *)
Definition itemEdges (item : Entity) : list Edge :=
  relationEdges (OfEntity item) "part of"
    (getEntityRelations item RELATION_PART_OF None)
  ++ relationEdges (OfEntity item) "provides API"
       (getEntityRelations item RELATION_PROVIDES_API None)
  ++ relationEdges (OfEntity item) "depends on"
       (getEntityRelations item RELATION_DEPENDS_ON None).

Definition nodesInOrder (rootEntity : Entity) (relatedEntities : list Entity)
    : list Node :=
  mkNode (entityId rootEntity)
    :: map (fun d => mkNode (targetId d)) (rootDomains rootEntity)
    ++ map (fun item => mkNode (entityId item)) relatedEntities.

Definition edgesInOrder (rootEntity : Entity) (relatedEntities : list Entity)
    : list Edge :=
  relationEdges (OfEntity rootEntity) "part of" (rootDomains rootEntity)
  ++ flat_map itemEdges relatedEntities.

(** The root has a part-of relation whose target is of kind domain. *)
Definition hasDomainRelation (rootEntity : Entity) : bool :=
  existsb
    (fun r => String.eqb (type r) RELATION_PART_OF
              && String.eqb (Js.toLocaleLowerCase (target_kind (target r)))
                            "domain")
    (relations rootEntity).

(** The three relation labels of the diagram. *)
Definition knownLabel (e : Edge) : Prop :=
  label e = "part of" \/ label e = "provides API" \/ label e = "depends on".

(** ** The normalization contract

    [normalizeRef_spec] is the spec's contract for [normalizeRef], in its
    words: the lowercase [kind:namespace/name], the namespace segment elided
    when the namespace equals the default namespace (an absent namespace
    defaults to it). *)

Definition normalizeRef_spec (ref : EntityRefLike) : string :=
  let lower := Js.toLocaleLowerCase in
  match refNamespace ref with
  | None => lower (refKind ref) ++ ":" ++ lower (refName ref)
  | Some ns =>
      if String.eqb ns ENTITY_DEFAULT_NAMESPACE
      then lower (refKind ref) ++ ":" ++ lower (refName ref)
      else lower (refKind ref) ++ ":" ++ lower ns ++ "/" ++ lower (refName ref)
  end.

(** The namespace of a ref, the default one when it gives none. *)
Definition namespaceOrDefault (ref : EntityRefLike) : string :=
  match refNamespace ref with
  | Some ns => ns
  | None => ENTITY_DEFAULT_NAMESPACE
  end.

(** Refs as the catalog validates them: no part holds one of the
    separators [:] and [/]. *)
Definition noSeparator (s : string) : bool :=
  negb (Js.includes ":" s) && negb (Js.includes "/" s).

Definition wellFormedRef (ref : EntityRefLike) : bool :=
  noSeparator (refKind ref)
  && noSeparator (namespaceOrDefault ref)
  && noSeparator (refName ref).

(** ** Concrete entities of the spec's examples *)

Definition payments : Entity :=
  mkEntity "System" (mkMeta (Some "default") "payments") [].

Definition checkout : Entity :=
  mkEntity "Component" (mkMeta (Some "default") "checkout")
    [mkRelation RELATION_DEPENDS_ON (mkEntityName "component" "default" "cart")].

Definition retail : Entity :=
  mkEntity "Domain" (mkMeta None "retail") [].

Definition retailName : EntityName := mkEntityName "Domain" "default" "retail".

(** The payments system assigned to the retail domain. *)
Definition paymentsInRetail : Entity :=
  mkEntity "System" (mkMeta (Some "default") "payments")
    [mkRelation RELATION_PART_OF retailName].

(** The catalog's record of the payments system, among the related
    entities; it has the id of [payments]. *)
Definition relatedOfPayments : list Entity := [paymentsInRetail; retail].

(** A ref whose namespace is the default one written with a capital. *)
Definition capitalDefault : EntityRefLike :=
  OfName "Component" (Some "Default") "cart".

(** ** The relations the component reacts to *)

(** The label the component gives to the relations of one type: it asks
    [getEntityRelations] for three types and has one literal for each. *)
Definition relationLabel (relationType : string) : option string :=
  if String.eqb relationType RELATION_PART_OF then Some "part of"
  else if String.eqb relationType RELATION_PROVIDES_API
       then Some "provides API"
  else if String.eqb relationType RELATION_DEPENDS_ON then Some "depends on"
  else None.

Definition handledRelation (r : EntityRelation) : bool :=
  match relationLabel (type r) with
  | Some _ => true
  | None => false
  end.

(** An entity with the relations of other types taken away. *)
Definition handledOnly (e : Entity) : Entity :=
  mkEntity (kind e) (metadata e) (filter handledRelation (relations e)).

(** The fetched items, none while there is no response. *)
Definition itemsOf (catalogResponse : option (list Entity)) : list Entity :=
  match catalogResponse with
  | Some items => items
  | None => []
  end.

(** The ids of the nodes of the graph. *)
Definition nodeIds (rootEntity : Entity) (relatedEntities : list Entity)
    : list string :=
  map id (systemNodes (buildGraph rootEntity relatedEntities)).

(** Every relation of a related entity that gives an edge has a target whose
    id is the id of a node. *)
Definition targetsResolved (rootEntity : Entity)
    (relatedEntities : list Entity) : bool :=
  forallb
    (fun item =>
       forallb
         (fun r =>
            negb (handledRelation r)
            || existsb (String.eqb (targetId (target r)))
                       (nodeIds rootEntity relatedEntities))
         (relations item))
    relatedEntities.

(** ** Refs up to case *)

(** What is left of a ref once case is forgotten and an absent namespace is
    read as the default one. *)
Definition refKey (ref : EntityRefLike) : string * string * string :=
  (Js.toLocaleLowerCase (refKind ref),
   Js.toLocaleLowerCase (namespaceOrDefault ref),
   Js.toLocaleLowerCase (refName ref)).

(** The refs the nodes of the graph are made from, in node order. *)
Definition nodeRefs (rootEntity : Entity) (relatedEntities : list Entity)
    : list EntityRefLike :=
  OfEntity rootEntity
    :: map ofTarget (rootDomains rootEntity)
    ++ map OfEntity relatedEntities.

(** ** The component in its surroundings

    What a run of the component can see and touch besides its arguments:
    the two arrays, with whatever an earlier run left in them, the catalog
    behind [catalogApi], and the requests sent to it so far.  Every
    statement of the component is a step from world to world. *)

(** The filter of the request to the catalog. *)
Record CatalogFilter : Type := mkFilter
  { filter_kind : list string;
    filter_spec_system : string }.

Record World : Type := mkWorld
  { arrays : Graph;
    requests : list CatalogFilter;
    catalog : CatalogFilter -> option (list Entity) }.

(** [new Array] for [systemNodes] and for [systemEdges]. *)
Definition newArrays (w : World) : World :=
  mkWorld (mkGraph [] []) (requests w) (catalog w).

(** A statement that works on the arrays. *)
Definition onArrays (f : Graph -> Graph) (w : World) : World :=
  mkWorld (f (arrays w)) (requests w) (catalog w).

(** [catalogApi.getEntities(request)], the input and output of the
    component: the request goes out, and what the catalog answers comes
    back, nothing while the fetch is running or after it failed. *)
Definition getEntities (request : CatalogFilter) (w : World)
    : option (list Entity) * World :=
  (catalog w request,
   mkWorld (arrays w) (requests w ++ [request])%list (catalog w)).

Definition catalogFilter (entity : Entity) : CatalogFilter :=
  let currentSystemName := name (metadata entity) in
  {| filter_kind := ["Component"; "API"; "Resource"; "System"; "Domain"];
     filter_spec_system := currentSystemName |}.

(** The statements that fill the arrays, from the push of the system's node
    to the end of the loop over the items, run in a world. *)
Definition constructIn (entity : Entity)
    (catalogResponse : option (list Entity)) (w : World) : World :=
  let currentSystemNode := simplifiedEntityName (OfEntity entity) in
  let w := onArrays (fun g => pushNode g {| id := currentSystemNode |}) w in
  let catalogItemDomain :=
    getEntityRelations entity RELATION_PART_OF (Some "domain") in
  let w := Js.forEach catalogItemDomain
             (fun w foundDomain =>
                onArrays
                  (fun g =>
                     pushNode g
                       {| id := simplifiedEntityName (ofTarget foundDomain) |})
                  w)
             w in
  let w := Js.forEach catalogItemDomain
             (fun w foundDomain =>
                onArrays
                  (fun g =>
                     pushEdge g
                       {| from := currentSystemNode;
                          to := simplifiedEntityName (ofTarget foundDomain);
                          label := "part of" |})
                  w)
             w in
  match catalogResponse with
  | Some items =>
      Js.forEach items
        (fun w catalogItem => onArrays (fun g => addCatalogItem g catalogItem) w)
        w
  | None => w
  end.

(** A run of the graph construction: fresh arrays, then the pushes. *)
Definition buildGraphIn (rootEntity : Entity) (relatedEntities : list Entity)
    (w : World) : World :=
  constructIn rootEntity (Some relatedEntities) (newArrays w).

(** A run of the component up to its [return], for a fetch that has
    settled: fresh arrays, the request to the catalog, the pushes. *)
Definition SystemDiagramCardIn (entity : Entity) (w : World) : World :=
  let w := newArrays w in
  let (catalogResponse, w) := getEntities (catalogFilter entity) w in
  constructIn entity catalogResponse w.

(** A world in which an earlier run has left its graph in the arrays and
    one request has been sent. *)
Definition usedWorld : World :=
  mkWorld (buildGraph paymentsInRetail [retail])
          [catalogFilter paymentsInRetail]
          (fun _ => Some [checkout]).

(** ** Pushing in a loop appends the mapped list *)

Section Loops.

Context {A : Type}.

Lemma forEach_pushNode (f : A -> Node) (l : list A) (g : Graph) :
  Js.forEach l (fun g x => pushNode g (f x)) g
  = mkGraph (systemNodes g ++ map f l) (systemEdges g).
Proof.
  unfold Js.forEach.
  revert g; induction l as [|x l IH]; intros g; simpl.
  - rewrite app_nil_r. now destruct g.
  - rewrite IH. unfold pushNode, Js.push; simpl.
    now rewrite <- app_assoc.
Qed.

Lemma forEach_pushEdge (f : A -> Edge) (l : list A) (g : Graph) :
  Js.forEach l (fun g x => pushEdge g (f x)) g
  = mkGraph (systemNodes g) (systemEdges g ++ map f l).
Proof.
  unfold Js.forEach.
  revert g; induction l as [|x l IH]; intros g; simpl.
  - rewrite app_nil_r. now destruct g.
  - rewrite IH. unfold pushEdge, Js.push; simpl.
    now rewrite <- app_assoc.
Qed.

End Loops.

Lemma pushRelationEdges_eq source lbl targets g :
  pushRelationEdges source lbl targets g
  = mkGraph (systemNodes g) (systemEdges g ++ relationEdges source lbl targets).
Proof.
  unfold pushRelationEdges.
  now rewrite (forEach_pushEdge
                 (fun t => mkEdge (simplifiedEntityName source) (targetId t) lbl)).
Qed.

Lemma addCatalogItem_eq g item :
  addCatalogItem g item
  = mkGraph (systemNodes g ++ [mkNode (entityId item)])
            (systemEdges g ++ itemEdges item).
Proof.
  unfold addCatalogItem, itemEdges.
  rewrite !pushRelationEdges_eq; simpl.
  unfold Js.push, entityId.
  now rewrite <- !app_assoc.
Qed.

Lemma forEach_addCatalogItem items g :
  Js.forEach items addCatalogItem g
  = mkGraph (systemNodes g ++ map (fun item => mkNode (entityId item)) items)
            (systemEdges g ++ flat_map itemEdges items).
Proof.
  unfold Js.forEach.
  revert g; induction items as [|item items IH]; intros g; simpl.
  - rewrite !app_nil_r. now destruct g.
  - rewrite IH, addCatalogItem_eq; simpl.
    now rewrite <- !app_assoc.
Qed.

Lemma buildGraph_eq rootEntity relatedEntities :
  buildGraph rootEntity relatedEntities
  = mkGraph (nodesInOrder rootEntity relatedEntities)
            (edgesInOrder rootEntity relatedEntities).
Proof.
  unfold buildGraph, systemDiagram.
  rewrite forEach_addCatalogItem.
  rewrite (forEach_pushEdge
             (fun d => mkEdge (simplifiedEntityName (OfEntity rootEntity))
                              (targetId d) "part of")).
  rewrite (forEach_pushNode (fun d => mkNode (targetId d))).
  reflexivity.
Qed.

Lemma systemNodes_buildGraph rootEntity relatedEntities :
  systemNodes (buildGraph rootEntity relatedEntities)
  = nodesInOrder rootEntity relatedEntities.
Proof. now rewrite buildGraph_eq. Qed.

Lemma systemEdges_buildGraph rootEntity relatedEntities :
  systemEdges (buildGraph rootEntity relatedEntities)
  = edgesInOrder rootEntity relatedEntities.
Proof. now rewrite buildGraph_eq. Qed.

(** ** Strings: lower-casing and the replacement of [:default/] *)

Ltac unfold_js :=
  cbn [Js.includes Js.toLocaleLowerCase Js.replace Js.startsWith
       String.append] in *.

Lemma lowerChar_colon c : Ascii.eqb ":" (Js.lowerChar c) = Ascii.eqb ":" c.
Proof.
  destruct c as [[] [] [] [] [] [] [] []]; reflexivity.
Qed.

Lemma lowerChar_slash c : Ascii.eqb "/" (Js.lowerChar c) = Ascii.eqb "/" c.
Proof.
  destruct c as [[] [] [] [] [] [] [] []]; reflexivity.
Qed.

Lemma string_app_assoc (s t u : string) : (s ++ t) ++ u = s ++ t ++ u.
Proof.
  induction s as [|c s IH]; cbn [String.append]; [reflexivity | now rewrite IH].
Qed.

Lemma toLocaleLowerCase_app s t :
  Js.toLocaleLowerCase (s ++ t)
  = Js.toLocaleLowerCase s ++ Js.toLocaleLowerCase t.
Proof.
  induction s as [|c s IH]; unfold_js; [reflexivity | now rewrite IH].
Qed.

Lemma includes_colon_lower s :
  Js.includes ":" (Js.toLocaleLowerCase s) = Js.includes ":" s.
Proof.
  induction s as [|c s IH]; unfold_js; [reflexivity|].
  now rewrite lowerChar_colon, IH.
Qed.

Lemma includes_slash_lower s :
  Js.includes "/" (Js.toLocaleLowerCase s) = Js.includes "/" s.
Proof.
  induction s as [|c s IH]; unfold_js; [reflexivity|].
  now rewrite lowerChar_slash, IH.
Qed.

Lemma includes_app c s t :
  Js.includes c (s ++ t) = Js.includes c s || Js.includes c t.
Proof.
  induction s as [|b s IH]; unfold_js; [reflexivity|].
  now rewrite IH, orb_assoc.
Qed.

(** A string without [:] holds no occurrence of a pattern that starts
    with [:], so the replacement leaves it as it is. *)
Lemma replace_no_colon p rep s :
  Js.includes ":" s = false ->
  Js.replace (String ":" p) rep s = s.
Proof.
  induction s as [|b s IH]; unfold_js; intros H; [reflexivity|].
  apply orb_false_iff in H as [Hb Hs].
  rewrite Hb. now rewrite (IH Hs).
Qed.

(** The search skips a prefix without [:]. *)
Lemma replace_skip_prefix p rep k s :
  Js.includes ":" k = false ->
  Js.replace (String ":" p) rep (k ++ s)
  = k ++ Js.replace (String ":" p) rep s.
Proof.
  induction k as [|b k IH]; intros H; [reflexivity|].
  cbn [Js.includes] in H.
  apply orb_false_iff in H as [Hb Hk].
  cbn [String.append Js.replace Js.startsWith].
  rewrite Hb. now rewrite (IH Hk).
Qed.

(** Matching [p/] against [ns/n], neither [p] nor [ns] holding a [/]:
    the match succeeds exactly when [p] is [ns]. *)
Lemma startsWith_segment p ns n :
  Js.includes "/" p = false ->
  Js.includes "/" ns = false ->
  Js.startsWith (p ++ "/") (ns ++ "/" ++ n)
  = if String.eqb p ns then Some n else None.
Proof.
  revert ns; induction p as [|a p IH]; intros [|b ns] Hp Hns;
    unfold_js; cbn [String.eqb].
  - reflexivity.
  - apply orb_false_iff in Hns as [Hb _]. now rewrite Hb.
  - apply orb_false_iff in Hp as [Ha _].
    rewrite Ascii.eqb_sym in Ha. now rewrite Ha.
  - apply orb_false_iff in Hp as [_ Hp].
    apply orb_false_iff in Hns as [_ Hns].
    destruct (Ascii.eqb a b); [now apply IH | reflexivity].
Qed.

(** At a [:] the search tries the rest of the pattern. *)
Lemma replace_at_colon p rep s :
  Js.replace (String ":" p) rep (String ":" s)
  = match Js.startsWith p s with
    | Some rest => rep ++ rest
    | None => String ":" (Js.replace (String ":" p) rep s)
    end.
Proof.
  cbn [Js.replace Js.startsWith]. now rewrite Ascii.eqb_refl.
Qed.

(** The normalization of a well-formed ref, part by part. *)
Lemma simplifiedEntityName_parts ref :
  wellFormedRef ref = true ->
  simplifiedEntityName ref
  = Js.toLocaleLowerCase (refKind ref) ++ ":"
    ++ (if String.eqb (Js.toLocaleLowerCase (namespaceOrDefault ref))
                      ENTITY_DEFAULT_NAMESPACE
        then ""
        else Js.toLocaleLowerCase (namespaceOrDefault ref) ++ "/")
    ++ Js.toLocaleLowerCase (refName ref).
Proof.
  unfold wellFormedRef, simplifiedEntityName, serializeEntityRef.
  fold (namespaceOrDefault ref).
  set (k := refKind ref); set (ns := namespaceOrDefault ref);
    set (n := refName ref).
  intros H.
  apply andb_true_iff in H as [H Hn].
  apply andb_true_iff in H as [Hk Hns].
  apply andb_true_iff in Hn as [Hn _].
  apply andb_true_iff in Hk as [Hk _].
  apply andb_true_iff in Hns as [Hc Hs].
  apply negb_true_iff in Hn, Hs, Hk, Hc.
  rewrite !toLocaleLowerCase_app.
  change (Js.toLocaleLowerCase ":") with ":".
  change (Js.toLocaleLowerCase "/") with "/".
  rewrite replace_skip_prefix by now rewrite includes_colon_lower.
  f_equal.
  change (":" ++ ?x) with (String ":" x).
  change ":default/" with (String ":" ("default" ++ "/")).
  rewrite replace_at_colon.
  rewrite startsWith_segment;
    [| reflexivity | now rewrite includes_slash_lower].
  rewrite (String.eqb_sym "default").
  unfold ENTITY_DEFAULT_NAMESPACE.
  destruct (String.eqb (Js.toLocaleLowerCase ns) "default").
  - reflexivity.
  - f_equal.
    rewrite string_app_assoc.
    apply replace_no_colon.
    rewrite !includes_app, !includes_colon_lower, Hc, Hn.
    reflexivity.
Qed.

(** On well-formed refs the normalization meets the spec's contract as
    soon as the namespace is not a differently cased spelling of the default
    one. *)
Lemma simplifiedEntityName_meets_spec ref :
  wellFormedRef ref = true ->
  (Js.toLocaleLowerCase (namespaceOrDefault ref) = ENTITY_DEFAULT_NAMESPACE ->
   namespaceOrDefault ref = ENTITY_DEFAULT_NAMESPACE) ->
  simplifiedEntityName ref = normalizeRef_spec ref.
Proof.
  intros H Hcase. rewrite (simplifiedEntityName_parts ref H).
  unfold normalizeRef_spec, namespaceOrDefault in *.
  destruct (refNamespace ref) as [ns|].
  - destruct (String.eqb_spec (Js.toLocaleLowerCase ns)
                ENTITY_DEFAULT_NAMESPACE) as [E | E].
    + rewrite (Hcase E), String.eqb_refl. reflexivity.
    + destruct (String.eqb_spec ns ENTITY_DEFAULT_NAMESPACE) as [E' | _].
      * subst ns. now elim E.
      * now rewrite string_app_assoc.
  - reflexivity.
Qed.

(** ** What is rendered *)

(** Once the fetch has resolved, the card shows the graph built from the
    entity and the fetched items; every render starts from empty arrays. *)
Lemma SystemDiagramCard_loaded entity items :
  SystemDiagramCard entity (mkAsync false None (Some items))
  = InfoCard (systemNodes (buildGraph entity items))
             (systemEdges (buildGraph entity items)).
Proof. reflexivity. Qed.

Lemma SystemDiagramCard_loading entity err items :
  SystemDiagramCard entity (mkAsync true err items) = Progress.
Proof. reflexivity. Qed.

(** ** Relations resolved by [getEntityRelations] *)

Lemma rootDomains_none rootEntity :
  hasDomainRelation rootEntity = false -> rootDomains rootEntity = [].
Proof.
  unfold hasDomainRelation, rootDomains, getEntityRelations.
  change (Js.toLocaleLowerCase "domain") with "domain".
  induction (relations rootEntity) as [|r rs IH]; cbn [existsb filter map];
    intros H; [reflexivity|].
  apply orb_false_iff in H as [Hr Hrs].
  destruct (String.eqb (type r) RELATION_PART_OF); cbn [andb map filter] in *.
  - rewrite Hr. now apply IH.
  - now apply IH.
Qed.

Lemma rootDomains_In rootEntity r :
  In r (relations rootEntity) ->
  type r = RELATION_PART_OF ->
  Js.toLocaleLowerCase (target_kind (target r)) = "domain" ->
  In (target r) (rootDomains rootEntity).
Proof.
  intros Hin Hty Hk.
  unfold rootDomains, getEntityRelations.
  apply filter_In; split.
  - apply in_map, filter_In. split; [assumption|].
    now apply String.eqb_eq.
  - apply String.eqb_eq. now rewrite Hk.
Qed.

(** ** Edges of one entity *)

Lemma relationEdges_In source lbl targets e :
  In e (relationEdges source lbl targets) ->
  from e = simplifiedEntityName source /\ label e = lbl.
Proof.
  unfold relationEdges. intros H.
  apply in_map_iff in H as (t & <- & _). now split.
Qed.

Lemma itemEdges_In item e :
  In e (itemEdges item) -> from e = entityId item /\ knownLabel e.
Proof.
  unfold itemEdges, knownLabel. intros H.
  apply in_app_or in H as [H | H]; [|apply in_app_or in H as [H | H]];
    apply relationEdges_In in H as [Hf Hl]; rewrite Hl; auto.
Qed.

Lemma edgesInOrder_In rootEntity relatedEntities e :
  In e (edgesInOrder rootEntity relatedEntities) ->
  (from e = entityId rootEntity /\ label e = "part of"
   /\ In e (relationEdges (OfEntity rootEntity) "part of"
              (rootDomains rootEntity)))
  \/ exists item, In item relatedEntities /\ In e (itemEdges item).
Proof.
  unfold edgesInOrder. intros H.
  apply in_app_or in H as [H | H].
  - left. destruct (relationEdges_In _ _ _ _ H) as [Hf Hl]. auto.
  - right. apply in_flat_map in H as (item & Hi & He). eauto.
Qed.

(** ** The spec's example *)

(** C1, as amended: for the root system [system:default/payments] without
    domain relations and the single related entity
    [component:default/checkout], whose only relation is a depends-on to
    [component:default/cart], the node list is [system:payments],
    [component:checkout], in that order, and the edge list is the single
    edge from [component:checkout] to [component:cart] labelled
    [depends on].  The relation target gets an edge and no node of its
    own. *)
Theorem buildGraph_payments_checkout (rootRelations : list EntityRelation) :
  let root :=
    mkEntity "System" (mkMeta (Some "default") "payments") rootRelations in
  hasDomainRelation root = false ->
  buildGraph root [checkout]
  = mkGraph [mkNode "system:payments"; mkNode "component:checkout"]
            [mkEdge "component:checkout" "component:cart" "depends on"].
Proof.
  intros root H.
  rewrite buildGraph_eq.
  unfold nodesInOrder, edgesInOrder.
  rewrite (rootDomains_none root H).
  reflexivity.
Qed.

Lemma buildGraph_payments_checkout_witness :
  hasDomainRelation payments = false
  /\ buildGraph payments [checkout]
     = mkGraph [mkNode "system:payments"; mkNode "component:checkout"]
               [mkEdge "component:checkout" "component:cart" "depends on"].
Proof.
  split; [reflexivity|].
  apply (buildGraph_payments_checkout []).
  reflexivity.
Defined.

(** C1 as stated fails: on the example the node list is not the claimed
    three nodes, and [component:cart] is no node at all. *)
Lemma buildGraph_payments_checkout_no_cart_node :
  systemNodes (buildGraph payments [checkout])
  <> [mkNode "system:payments"; mkNode "component:checkout";
      mkNode "component:cart"]
  /\ ~ In (mkNode "component:cart")
         (systemNodes (buildGraph payments [checkout])).
Proof.
  split.
  - vm_compute. discriminate.
  - vm_compute. intros [H | [H | []]]; discriminate H.
Qed.

(** ** Nodes are pushed, never looked up *)

(** C2, as amended: the builder does not deduplicate.  Every push adds an
    entry, so the node list has one entry for the root, one per domain
    relation of the root and one per related entity, and its ids are
    pairwise distinct exactly when those pushed ids are. *)
Theorem buildGraph_nodes_one_per_push rootEntity relatedEntities :
  length (systemNodes (buildGraph rootEntity relatedEntities))
  = 1 + length (rootDomains rootEntity) + length relatedEntities
  /\ (NoDup (map id (systemNodes (buildGraph rootEntity relatedEntities)))
      <-> NoDup (entityId rootEntity
                   :: map targetId (rootDomains rootEntity)
                   ++ map entityId relatedEntities)).
Proof.
  rewrite systemNodes_buildGraph. unfold nodesInOrder.
  split.
  - cbn [length]. rewrite length_app, !length_map. lia.
  - cbn [map id]. rewrite map_app, !map_map. cbn [id]. reflexivity.
Qed.

(** C2 as stated fails: a domain named by the root's relation and present
    among the related entities is a node twice. *)
Lemma buildGraph_duplicate_domain_node :
  map id (systemNodes (buildGraph paymentsInRetail [retail]))
  = ["system:payments"; "domain:retail"; "domain:retail"]
  /\ ~ NoDup (map id (systemNodes (buildGraph paymentsInRetail [retail]))).
Proof.
  split; [reflexivity|].
  change (map id (systemNodes (buildGraph paymentsInRetail [retail])))
    with ["system:payments"; "domain:retail"; "domain:retail"].
  intros H.
  apply NoDup_cons_iff in H as [_ H].
  apply NoDup_cons_iff in H as [H _].
  apply H. now left.
Qed.

(** ** Normalized ids *)

(** C3, as amended: for every well-formed entity ref, the normalized id
    is the lowercase [kind:namespace/name], except that when the namespace,
    once lower-cased, equals the default namespace (an absent namespace
    counts as the default one) the id is the lowercase [kind:name], the
    namespace segment and its [/] elided. *)
Theorem simplifiedEntityName_elides_default ref :
  wellFormedRef ref = true ->
  simplifiedEntityName ref
  = if String.eqb (Js.toLocaleLowerCase (namespaceOrDefault ref))
                  ENTITY_DEFAULT_NAMESPACE
    then Js.toLocaleLowerCase (refKind ref) ++ ":"
         ++ Js.toLocaleLowerCase (refName ref)
    else Js.toLocaleLowerCase (refKind ref) ++ ":"
         ++ Js.toLocaleLowerCase (namespaceOrDefault ref) ++ "/"
         ++ Js.toLocaleLowerCase (refName ref).
Proof.
  intros H. rewrite (simplifiedEntityName_parts ref H).
  destruct (String.eqb _ ENTITY_DEFAULT_NAMESPACE).
  - reflexivity.
  - now rewrite string_app_assoc.
Qed.

Lemma simplifiedEntityName_elides_default_witness :
  wellFormedRef (OfName "API" (Some "Billing") "Invoices") = true
  /\ simplifiedEntityName (OfName "API" (Some "Billing") "Invoices")
     = "api:billing/invoices".
Proof.
  split; [reflexivity|].
  exact (simplifiedEntityName_elides_default
           (OfName "API" (Some "Billing") "Invoices") eq_refl).
Defined.

(** C3 as stated fails: the namespace [Default] is not the default
    namespace, and it is elided all the same, because the ref is
    lower-cased before [:default/] is looked for. *)
Lemma simplifiedEntityName_capital_default :
  refNamespace capitalDefault <> Some ENTITY_DEFAULT_NAMESPACE
  /\ normalizeRef_spec capitalDefault = "component:default/cart"
  /\ simplifiedEntityName capitalDefault = "component:cart"
  /\ simplifiedEntityName capitalDefault <> normalizeRef_spec capitalDefault.
Proof.
  repeat split; try reflexivity.
  - discriminate.
  - vm_compute. discriminate.
Qed.

(** ** Determinism *)

Lemma forEach_onArrays {A : Type} (f : Graph -> A -> Graph) (l : list A)
    (w : World) :
  Js.forEach l (fun w x => onArrays (fun g => f g x) w) w
  = onArrays (fun g => Js.forEach l f g) w.
Proof.
  unfold Js.forEach. revert w; induction l as [|x l IH]; intros w.
  - now destruct w.
  - cbn [fold_left]. now rewrite IH.
Qed.

(** The pushes append to the arrays they find and touch nothing else. *)
Lemma constructIn_eq entity catalogResponse w :
  constructIn entity catalogResponse w
  = mkWorld
      (mkGraph
         (systemNodes (arrays w)
          ++ systemNodes (systemDiagram entity catalogResponse))
         (systemEdges (arrays w)
          ++ systemEdges (systemDiagram entity catalogResponse)))
      (requests w) (catalog w).
Proof.
  unfold constructIn, systemDiagram.
  destruct catalogResponse as [items|].
  - rewrite (forEach_onArrays addCatalogItem).
    rewrite (forEach_onArrays
               (fun g d =>
                  pushEdge g
                    (mkEdge (simplifiedEntityName (OfEntity entity))
                            (simplifiedEntityName (ofTarget d)) "part of"))).
    rewrite (forEach_onArrays
               (fun g d =>
                  pushNode g (mkNode (simplifiedEntityName (ofTarget d))))).
    unfold onArrays. cbn [arrays requests catalog].
    rewrite !forEach_addCatalogItem.
    rewrite !(forEach_pushEdge
                (fun d => mkEdge (simplifiedEntityName (OfEntity entity))
                                 (simplifiedEntityName (ofTarget d))
                                 "part of")).
    rewrite !(forEach_pushNode
                (fun d => mkNode (simplifiedEntityName (ofTarget d)))).
    unfold pushNode, Js.push. cbn [systemNodes systemEdges app].
    now rewrite <- !app_assoc.
  - rewrite (forEach_onArrays
               (fun g d =>
                  pushEdge g
                    (mkEdge (simplifiedEntityName (OfEntity entity))
                            (simplifiedEntityName (ofTarget d)) "part of"))).
    rewrite (forEach_onArrays
               (fun g d =>
                  pushNode g (mkNode (simplifiedEntityName (ofTarget d))))).
    unfold onArrays. cbn [arrays requests catalog].
    rewrite !(forEach_pushEdge
                (fun d => mkEdge (simplifiedEntityName (OfEntity entity))
                                 (simplifiedEntityName (ofTarget d))
                                 "part of")).
    rewrite !(forEach_pushNode
                (fun d => mkNode (simplifiedEntityName (ofTarget d)))).
    unfold pushNode, Js.push. cbn [systemNodes systemEdges app].
    now rewrite <- !app_assoc.
Qed.

(** Without the fresh arrays a run would carry on from what it finds. *)
Lemma constructIn_usedWorld :
  map id (systemNodes (arrays (constructIn payments (Some [checkout])
                                 usedWorld)))
  = ["system:payments"; "domain:retail"; "domain:retail";
     "system:payments"; "component:checkout"].
Proof. reflexivity. Qed.

(** The component as a whole does talk to the catalog: one request, with
    the system's name, and the graph is built from the answer. *)
Lemma SystemDiagramCardIn_eq entity w :
  SystemDiagramCardIn entity w
  = mkWorld (systemDiagram entity (catalog w (catalogFilter entity)))
            (requests w ++ [catalogFilter entity])
            (catalog w).
Proof.
  unfold SystemDiagramCardIn, getEntities. rewrite constructIn_eq.
  cbn [arrays requests catalog newArrays systemNodes systemEdges app].
  now destruct (systemDiagram entity (catalog w (catalogFilter entity))).
Qed.

(** C4: two runs of the construction on the same root entity and the same
    ordered list of related entities return the same node sequence and the
    same edge sequence, in whatever worlds they run: the arrays are fresh in
    each run, so nothing an earlier run left, nothing the catalog holds and
    nothing sent before bears on the outcome, which is the graph of the
    inputs.  The construction does no input or output: it sends no request
    and leaves the catalog as it is. *)
Theorem buildGraphIn_deterministic_pure rootEntity relatedEntities
    (w1 w2 : World) :
  systemNodes (arrays (buildGraphIn rootEntity relatedEntities w1))
  = systemNodes (arrays (buildGraphIn rootEntity relatedEntities w2))
  /\ systemEdges (arrays (buildGraphIn rootEntity relatedEntities w1))
     = systemEdges (arrays (buildGraphIn rootEntity relatedEntities w2))
  /\ arrays (buildGraphIn rootEntity relatedEntities w1)
     = buildGraph rootEntity relatedEntities
  /\ requests (buildGraphIn rootEntity relatedEntities w1) = requests w1
  /\ catalog (buildGraphIn rootEntity relatedEntities w1) = catalog w1.
Proof.
  unfold buildGraphIn. rewrite !constructIn_eq.
  cbn [arrays requests catalog newArrays systemNodes systemEdges app].
  fold (buildGraph rootEntity relatedEntities).
  repeat split. now destruct (buildGraph rootEntity relatedEntities).
Qed.

(** ** The root and its domains *)

(** C5: every part-of relation of the root whose target is of kind domain
    gives a node with the target's normalized id and an edge from the
    root's id to it labelled [part of], whatever the related entities
    are: the domain need not be among them. *)
Theorem root_domain_relation_rendered rootEntity relatedEntities r :
  In r (relations rootEntity) ->
  type r = RELATION_PART_OF ->
  Js.toLocaleLowerCase (target_kind (target r)) = "domain" ->
  In (mkNode (targetId (target r)))
     (systemNodes (buildGraph rootEntity relatedEntities))
  /\ In (mkEdge (entityId rootEntity) (targetId (target r)) "part of")
        (systemEdges (buildGraph rootEntity relatedEntities)).
Proof.
  intros Hin Hty Hk.
  pose proof (rootDomains_In rootEntity r Hin Hty Hk) as Hd.
  rewrite buildGraph_eq; cbn [systemNodes systemEdges].
  unfold nodesInOrder, edgesInOrder, relationEdges. split.
  - right. apply in_or_app. left.
    now apply (in_map (fun d => mkNode (targetId d))).
  - apply in_or_app. left.
    now apply (in_map (fun t => mkEdge _ (targetId t) "part of")).
Qed.

Lemma root_domain_relation_rendered_witness :
  In (mkNode "domain:retail") (systemNodes (buildGraph paymentsInRetail []))
  /\ In (mkEdge "system:payments" "domain:retail" "part of")
        (systemEdges (buildGraph paymentsInRetail [])).
Proof.
  apply (root_domain_relation_rendered paymentsInRetail []
           (mkRelation RELATION_PART_OF retailName)).
  - simpl. left. reflexivity.
  - reflexivity.
  - reflexivity.
Defined.

(** C6: the root's normalized id is in the node list, as its first
    element. *)
Theorem buildGraph_root_first rootEntity relatedEntities :
  hd_error (systemNodes (buildGraph rootEntity relatedEntities))
  = Some (mkNode (entityId rootEntity))
  /\ In (mkNode (entityId rootEntity))
        (systemNodes (buildGraph rootEntity relatedEntities)).
Proof.
  rewrite systemNodes_buildGraph. unfold nodesInOrder.
  split; [reflexivity | now left].
Qed.

(** ** Edges *)

(** C7: the label of every edge is one of [part of], [provides API] and
    [depends on]. *)
Theorem buildGraph_labels rootEntity relatedEntities :
  Forall knownLabel (systemEdges (buildGraph rootEntity relatedEntities)).
Proof.
  rewrite systemEdges_buildGraph. apply Forall_forall. intros e He.
  apply edgesInOrder_In in He as [(_ & Hl & _) | (item & _ & He)].
  - now left.
  - now apply itemEdges_In in He.
Qed.

(** C8, as amended: when the root has no part-of relation to a target of
    kind domain, the root contributes no edge: the edge list is that of the
    related entities alone, every edge from the root's id is an edge of a
    related entity with that same id, and when no related entity has the
    root's id no edge starts at it. *)
Theorem no_domain_relation_no_root_edge rootEntity relatedEntities :
  hasDomainRelation rootEntity = false ->
  systemEdges (buildGraph rootEntity relatedEntities)
  = flat_map itemEdges relatedEntities
  /\ Forall (fun e =>
               from e = entityId rootEntity ->
               exists item, In item relatedEntities
                            /\ entityId item = entityId rootEntity
                            /\ In e (itemEdges item))
            (systemEdges (buildGraph rootEntity relatedEntities))
  /\ (Forall (fun item => entityId item <> entityId rootEntity)
             relatedEntities ->
      Forall (fun e => from e <> entityId rootEntity)
             (systemEdges (buildGraph rootEntity relatedEntities))).
Proof.
  intros H.
  assert (E : systemEdges (buildGraph rootEntity relatedEntities)
              = flat_map itemEdges relatedEntities).
  { rewrite systemEdges_buildGraph. unfold edgesInOrder.
    now rewrite (rootDomains_none rootEntity H). }
  rewrite E. split; [reflexivity|]. split.
  - apply Forall_forall. intros e He Hf.
    apply in_flat_map in He as (item & Hi & He).
    exists item. repeat split; try assumption.
    apply itemEdges_In in He as [Hfrom _]. congruence.
  - intros Hno. apply Forall_forall. intros e He Hf.
    apply in_flat_map in He as (item & Hi & He).
    apply itemEdges_In in He as [Hfrom _].
    rewrite Forall_forall in Hno.
    apply (Hno item Hi). congruence.
Qed.

Lemma no_domain_relation_no_root_edge_witness :
  hasDomainRelation payments = false
  /\ systemEdges (buildGraph payments [checkout; retail])
     = [mkEdge "component:checkout" "component:cart" "depends on"].
Proof.
  split; [reflexivity|].
  exact (proj1 (no_domain_relation_no_root_edge payments [checkout; retail]
                  eq_refl)).
Defined.

(** C8 as stated fails: [payments] has no relation at all, yet a related
    entity with its id and a part-of relation to the retail domain gives a
    [part of] edge from the root's id to the id of a domain node. *)
Lemma part_of_edge_from_root_id :
  hasDomainRelation payments = false
  /\ In (mkEdge (entityId payments) (entityId retail) "part of")
        (systemEdges (buildGraph payments relatedOfPayments))
  /\ In (mkNode (entityId retail))
        (systemNodes (buildGraph payments relatedOfPayments))
  /\ kind retail = "Domain".
Proof.
  split; [reflexivity|]. split; [|split; [|reflexivity]].
  - vm_compute. left. reflexivity.
  - vm_compute. right. right. left. reflexivity.
Qed.

(** ** Order *)

(** C9: both sequences are in insertion order.  The nodes are the root,
    then the root's domain targets in relation order, then the related
    entities in input order.  The edges are the root's [part of] edges to
    its domains, then for each related entity in input order its part-of
    edges, its provides-API edges and its depends-on edges, each group in
    relation order. *)
Theorem buildGraph_insertion_order rootEntity relatedEntities :
  systemNodes (buildGraph rootEntity relatedEntities)
  = (mkNode (entityId rootEntity)
       :: map (fun d => mkNode (targetId d))
              (getEntityRelations rootEntity RELATION_PART_OF (Some "domain"))
       ++ map (fun item => mkNode (entityId item)) relatedEntities)%list
  /\ systemEdges (buildGraph rootEntity relatedEntities)
     = (map (fun d => mkEdge (entityId rootEntity) (targetId d) "part of")
            (getEntityRelations rootEntity RELATION_PART_OF (Some "domain"))
        ++ flat_map
             (fun item =>
                map (fun t => mkEdge (entityId item) (targetId t) "part of")
                    (getEntityRelations item RELATION_PART_OF None)
                ++ map (fun t =>
                          mkEdge (entityId item) (targetId t) "provides API")
                       (getEntityRelations item RELATION_PROVIDES_API None)
                ++ map (fun t =>
                          mkEdge (entityId item) (targetId t) "depends on")
                       (getEntityRelations item RELATION_DEPENDS_ON None))
             relatedEntities)%list.
Proof.
  rewrite buildGraph_eq. split; reflexivity.
Qed.

(** C10: the from-id of every edge is the id of a node of the returned
    node list; a to-id need not be, as the cart of the spec's example
    shows. *)
Theorem buildGraph_edge_sources_are_nodes :
  (forall rootEntity relatedEntities,
      Forall (fun e =>
                In (mkNode (from e))
                   (systemNodes (buildGraph rootEntity relatedEntities)))
             (systemEdges (buildGraph rootEntity relatedEntities)))
  /\ exists rootEntity relatedEntities e,
       In e (systemEdges (buildGraph rootEntity relatedEntities))
       /\ ~ In (mkNode (to e))
              (systemNodes (buildGraph rootEntity relatedEntities)).
Proof.
  split.
  - intros rootEntity relatedEntities.
    rewrite buildGraph_eq; cbn [systemNodes systemEdges].
    apply Forall_forall. intros e He. unfold nodesInOrder.
    apply edgesInOrder_In in He as [(Hf & _) | (item & Hi & He)].
    + left. now rewrite Hf.
    + right. apply in_or_app. right.
      apply itemEdges_In in He as [Hf _]. rewrite Hf.
      now apply (in_map (fun item => mkNode (entityId item))).
  - exists payments, [checkout],
      (mkEdge "component:checkout" "component:cart" "depends on").
    split.
    + vm_compute. left. reflexivity.
    + vm_compute. intros [H | [H | []]]; discriminate H.
Qed.

(** ** Further properties of the component *)

Lemma systemDiagram_itemsOf entity catalogResponse :
  systemDiagram entity catalogResponse
  = buildGraph entity (itemsOf catalogResponse).
Proof. destruct catalogResponse; reflexivity. Qed.

Lemma edgesInOrder_knownLabel rootEntity relatedEntities :
  Forall knownLabel (edgesInOrder rootEntity relatedEntities).
Proof.
  apply Forall_forall. intros e He.
  apply edgesInOrder_In in He as [(_ & Hl & _) | (item & _ & He)].
  - now left.
  - now apply itemEdges_In in He.
Qed.

Lemma edgesInOrder_from_node rootEntity relatedEntities :
  Forall (fun e => In (mkNode (from e))
                      (nodesInOrder rootEntity relatedEntities))
         (edgesInOrder rootEntity relatedEntities).
Proof.
  apply Forall_forall. intros e He. unfold nodesInOrder.
  apply edgesInOrder_In in He as [(Hf & _) | (item & Hi & He)].
  - left. now rewrite Hf.
  - right. apply in_or_app. right.
    apply itemEdges_In in He as [Hf _]. rewrite Hf.
    now apply (in_map (fun item => mkNode (entityId item))).
Qed.

(** X1: while there is no response (the fetch is running or has failed) the
    arrays already hold the system's node, a node for each of its domains
    and the [part of] edges to them, and nothing else; an empty response
    gives the same graph. *)
Theorem systemDiagram_without_response entity :
  systemDiagram entity None = systemDiagram entity (Some [])
  /\ systemNodes (systemDiagram entity None)
     = mkNode (entityId entity)
         :: map (fun d => mkNode (targetId d)) (rootDomains entity)
  /\ systemEdges (systemDiagram entity None)
     = map (fun d => mkEdge (entityId entity) (targetId d) "part of")
           (rootDomains entity).
Proof.
  split; [reflexivity|].
  rewrite systemDiagram_itemsOf, buildGraph_eq.
  cbn [itemsOf systemNodes systemEdges].
  unfold nodesInOrder, edgesInOrder.
  cbn [map flat_map]. rewrite !app_nil_r. split; reflexivity.
Qed.

(** X2: related entities that come later in the response only append:
    the graph of a longer response is the loop continued from the graph of
    its first part, whose nodes and edges stay in front, unchanged. *)
Theorem buildGraph_app rootEntity items more :
  buildGraph rootEntity (items ++ more)
  = Js.forEach more addCatalogItem (buildGraph rootEntity items)
  /\ systemNodes (buildGraph rootEntity (items ++ more))
     = (systemNodes (buildGraph rootEntity items)
        ++ map (fun item => mkNode (entityId item)) more)%list
  /\ systemEdges (buildGraph rootEntity (items ++ more))
     = (systemEdges (buildGraph rootEntity items)
        ++ flat_map itemEdges more)%list.
Proof.
  assert (E : buildGraph rootEntity (items ++ more)
              = Js.forEach more addCatalogItem (buildGraph rootEntity items)).
  { unfold buildGraph, systemDiagram, Js.forEach at 1 4.
    now rewrite fold_left_app. }
  rewrite E, forEach_addCatalogItem. repeat split; reflexivity.
Qed.

(** X3: the order of the related entities decides the order of the graph
    and nothing more: a response with the same entities in another order
    gives the same nodes and the same edges, each as often, in another
    order. *)
Theorem buildGraph_Permutation rootEntity items items' :
  Permutation items items' ->
  Permutation (systemNodes (buildGraph rootEntity items))
              (systemNodes (buildGraph rootEntity items'))
  /\ Permutation (systemEdges (buildGraph rootEntity items))
                 (systemEdges (buildGraph rootEntity items')).
Proof.
  intros P. rewrite !buildGraph_eq. cbn [systemNodes systemEdges].
  unfold nodesInOrder, edgesInOrder. split.
  - apply perm_skip, Permutation_app_head. now apply Permutation_map.
  - apply Permutation_app_head. now apply Permutation_flat_map.
Qed.

Lemma buildGraph_Permutation_witness :
  Permutation (systemNodes (buildGraph paymentsInRetail [checkout; retail]))
              (systemNodes (buildGraph paymentsInRetail [retail; checkout]))
  /\ Permutation (systemEdges (buildGraph paymentsInRetail [checkout; retail]))
                 (systemEdges (buildGraph paymentsInRetail [retail; checkout])).
Proof.
  apply (buildGraph_Permutation paymentsInRetail
           [checkout; retail] [retail; checkout]).
  apply perm_swap.
Defined.

(** X4: the card shows a graph only when the fetch is neither running nor
    failed, and a graph it shows starts with the system's node, has only
    the three known labels and has a node for the from-id of every edge,
    also when the fetch left no value. *)
Theorem SystemDiagramCard_graph entity st nodes edges :
  SystemDiagramCard entity st = InfoCard nodes edges ->
  loading st = false
  /\ error st = None
  /\ hd_error nodes = Some (mkNode (entityId entity))
  /\ Forall knownLabel edges
  /\ Forall (fun e => In (mkNode (from e)) nodes) edges.
Proof.
  unfold SystemDiagramCard.
  destruct (loading st); [discriminate|].
  destruct (error st); [discriminate|].
  rewrite systemDiagram_itemsOf, buildGraph_eq.
  cbn [systemNodes systemEdges].
  intros H. injection H as <- <-.
  repeat split.
  - apply edgesInOrder_knownLabel.
  - apply edgesInOrder_from_node.
Qed.

Lemma SystemDiagramCard_graph_witness :
  loading (mkAsync false None None) = false
  /\ error (mkAsync false None None) = None
  /\ hd_error [mkNode "system:payments"; mkNode "domain:retail"]
     = Some (mkNode (entityId paymentsInRetail))
  /\ Forall knownLabel [mkEdge "system:payments" "domain:retail" "part of"]
  /\ Forall (fun e => In (mkNode (from e))
                         [mkNode "system:payments"; mkNode "domain:retail"])
            [mkEdge "system:payments" "domain:retail" "part of"].
Proof.
  apply (SystemDiagramCard_graph paymentsInRetail (mkAsync false None None)).
  reflexivity.
Defined.

(** ** Edges and the relations they come from *)

Lemma getEntityRelations_In entity relationType t :
  In t (getEntityRelations entity relationType None)
  <-> exists r, In r (relations entity)
                /\ type r = relationType /\ target r = t.
Proof.
  unfold getEntityRelations. rewrite in_map_iff. split.
  - intros (r & Ht & Hr). apply filter_In in Hr as [Hr Hty].
    apply String.eqb_eq in Hty. eauto.
  - intros (r & Hr & Hty & Ht). exists r. split; [assumption|].
    apply filter_In. split; [assumption|]. now apply String.eqb_eq.
Qed.

Lemma rootDomains_In_inv rootEntity t :
  In t (rootDomains rootEntity) ->
  exists r, In r (relations rootEntity)
            /\ type r = RELATION_PART_OF /\ target r = t.
Proof.
  unfold rootDomains, getEntityRelations. intros H.
  apply filter_In in H as [H _].
  apply in_map_iff in H as (r & Ht & Hr).
  apply filter_In in Hr as [Hr Hty]. apply String.eqb_eq in Hty. eauto.
Qed.

Lemma relationLabel_Some relationType lbl :
  relationLabel relationType = Some lbl
  <-> (relationType = RELATION_PART_OF /\ lbl = "part of")
      \/ (relationType = RELATION_PROVIDES_API /\ lbl = "provides API")
      \/ (relationType = RELATION_DEPENDS_ON /\ lbl = "depends on").
Proof.
  unfold relationLabel. split.
  - destruct (String.eqb_spec relationType RELATION_PART_OF);
      [intros [= <-]; auto|].
    destruct (String.eqb_spec relationType RELATION_PROVIDES_API);
      [intros [= <-]; auto|].
    destruct (String.eqb_spec relationType RELATION_DEPENDS_ON);
      [intros [= <-]; auto | discriminate].
  - intros [[-> ->] | [[-> ->] | [-> ->]]]; reflexivity.
Qed.

Lemma itemEdges_In_iff item e :
  In e (itemEdges item)
  <-> exists r lbl,
        In r (relations item)
        /\ relationLabel (type r) = Some lbl
        /\ e = mkEdge (entityId item) (targetId (target r)) lbl.
Proof.
  unfold itemEdges, relationEdges. rewrite !in_app_iff, !in_map_iff.
  fold (entityId item). split.
  - intros [H | [H | H]]; destruct H as (t & <- & Ht);
      apply getEntityRelations_In in Ht as (r & Hr & Hty & <-);
      exists r; eexists; (split; [exact Hr|]); rewrite Hty;
      (split; [reflexivity|]); reflexivity.
  - intros (r & lbl & Hr & Hl & ->).
    apply relationLabel_Some in Hl as [[Hty ->] | [[Hty ->] | [Hty ->]]];
      [left | right; left | right; right];
      exists (target r); (split; [reflexivity|]);
      apply getEntityRelations_In; eauto.
Qed.

Lemma nodeIds_eq rootEntity relatedEntities :
  nodeIds rootEntity relatedEntities
  = entityId rootEntity
      :: map targetId (rootDomains rootEntity)
      ++ map entityId relatedEntities.
Proof.
  unfold nodeIds. rewrite systemNodes_buildGraph. unfold nodesInOrder.
  cbn [map id]. now rewrite map_app, !map_map.
Qed.

Lemma itemEdges_length item :
  length (itemEdges item)
  = length (filter handledRelation (relations item)).
Proof.
  unfold itemEdges, relationEdges, getEntityRelations.
  rewrite !length_app, !length_map.
  induction (relations item) as [|r rs IH]; [reflexivity|].
  cbn [filter]. unfold handledRelation at 1, relationLabel.
  destruct (String.eqb (type r) RELATION_PART_OF) eqn:E1;
    destruct (String.eqb (type r) RELATION_PROVIDES_API) eqn:E2;
    destruct (String.eqb (type r) RELATION_DEPENDS_ON) eqn:E3;
    try (apply String.eqb_eq in E1); try (apply String.eqb_eq in E2);
    try (apply String.eqb_eq in E3);
    try (rewrite E1 in *; discriminate);
    try (rewrite E2 in *; discriminate);
    cbn [length]; lia.
Qed.

Lemma filter_type_handled relationType rs :
  relationLabel relationType <> None ->
  filter (fun r => String.eqb (type r) relationType)
         (filter handledRelation rs)
  = filter (fun r => String.eqb (type r) relationType) rs.
Proof.
  intros H. induction rs as [|r rs IH]; [reflexivity|].
  cbn [filter]. destruct (handledRelation r) eqn:Hh.
  - cbn [filter]. now rewrite IH.
  - destruct (String.eqb_spec (type r) relationType) as [E | _];
      [|exact IH].
    unfold handledRelation in Hh. rewrite E in Hh.
    destruct (relationLabel relationType); [discriminate | now elim H].
Qed.

Lemma getEntityRelations_handledOnly e relationType filterKind :
  relationLabel relationType <> None ->
  getEntityRelations (handledOnly e) relationType filterKind
  = getEntityRelations e relationType filterKind.
Proof.
  intros H. unfold getEntityRelations, handledOnly. cbn [relations].
  now rewrite (filter_type_handled relationType _ H).
Qed.

Lemma itemEdges_handledOnly e : itemEdges (handledOnly e) = itemEdges e.
Proof.
  unfold itemEdges.
  rewrite !getEntityRelations_handledOnly by discriminate.
  reflexivity.
Qed.

(** X5: no edge is made up.  Every edge comes from a relation of the
    system or of a related entity: its from-id is that entity's id, its
    to-id the id of the relation's target and its label the one of the
    relation's type. *)
Theorem buildGraph_edges_sound rootEntity relatedEntities :
  Forall (fun e =>
            exists entity r,
              In entity (rootEntity :: relatedEntities)
              /\ In r (relations entity)
              /\ relationLabel (type r) = Some (label e)
              /\ from e = entityId entity
              /\ to e = targetId (target r))
         (systemEdges (buildGraph rootEntity relatedEntities)).
Proof.
  rewrite systemEdges_buildGraph. apply Forall_forall. intros e He.
  apply edgesInOrder_In in He as [(_ & _ & He) | (item & Hi & He)].
  - unfold relationEdges in He.
    apply in_map_iff in He as (t & <- & Ht).
    apply rootDomains_In_inv in Ht as (r & Hr & Hty & <-).
    exists rootEntity, r. cbn [from to label]. rewrite Hty.
    repeat split; auto. now left.
  - apply itemEdges_In_iff in He as (r & lbl & Hr & Hl & ->).
    exists item, r. cbn [from to label]. repeat split; auto. now right.
Qed.

(** X6: no relation of a related entity is lost.  Every part-of,
    provides-API and depends-on relation of a related entity gives the edge
    from the entity's id to the target's id with the label of its type,
    whatever the kind of the target and whether or not the target is a
    node. *)
Theorem related_relation_rendered rootEntity relatedEntities item r lbl :
  In item relatedEntities ->
  In r (relations item) ->
  relationLabel (type r) = Some lbl ->
  In (mkEdge (entityId item) (targetId (target r)) lbl)
     (systemEdges (buildGraph rootEntity relatedEntities)).
Proof.
  intros Hi Hr Hl. rewrite systemEdges_buildGraph. unfold edgesInOrder.
  apply in_or_app. right. apply in_flat_map. exists item.
  split; [assumption|]. apply itemEdges_In_iff. eauto.
Qed.

Lemma related_relation_rendered_witness :
  In (mkEdge "system:payments" "domain:retail" "part of")
     (systemEdges (buildGraph payments relatedOfPayments)).
Proof.
  apply (related_relation_rendered payments relatedOfPayments
           paymentsInRetail (mkRelation RELATION_PART_OF retailName)
           "part of").
  - simpl. left. reflexivity.
  - simpl. left. reflexivity.
  - reflexivity.
Defined.

(** X7: edges are counted, not merged: there is one edge per domain
    relation of the system and one per part-of, provides-API or depends-on
    relation of each related entity, relations of any other type adding
    none. *)
Theorem buildGraph_edge_count rootEntity relatedEntities :
  length (systemEdges (buildGraph rootEntity relatedEntities))
  = length (rootDomains rootEntity)
    + list_sum
        (map (fun item => length (filter handledRelation (relations item)))
             relatedEntities).
Proof.
  rewrite systemEdges_buildGraph. unfold edgesInOrder, relationEdges.
  rewrite length_app, length_map, length_flat_map. f_equal. f_equal.
  apply map_ext. intros item. apply itemEdges_length.
Qed.

(** X8: relations of other types are ignored: taking them away from the
    system and from every related entity leaves the graph as it is. *)
Theorem buildGraph_handledOnly rootEntity relatedEntities :
  buildGraph (handledOnly rootEntity) (map handledOnly relatedEntities)
  = buildGraph rootEntity relatedEntities.
Proof.
  rewrite !buildGraph_eq. unfold nodesInOrder, edgesInOrder, rootDomains.
  rewrite getEntityRelations_handledOnly by discriminate.
  rewrite map_map.
  assert (E : flat_map itemEdges (map handledOnly relatedEntities)
              = flat_map itemEdges relatedEntities).
  { induction relatedEntities as [|item items IH]; [reflexivity|].
    cbn [map flat_map]. now rewrite IH, itemEdges_handledOnly. }
  rewrite E. reflexivity.
Qed.

(** X9: the graph has no dangling edge exactly when every relation that
    gives an edge of a related entity has a target whose id is the id of the
    system, of one of its domains or of a related entity. *)
Theorem buildGraph_closed_iff rootEntity relatedEntities :
  targetsResolved rootEntity relatedEntities = true
  <-> Forall (fun e => In (to e) (nodeIds rootEntity relatedEntities))
             (systemEdges (buildGraph rootEntity relatedEntities)).
Proof.
  unfold targetsResolved. rewrite Forall_forall, forallb_forall. split.
  - intros H e He. rewrite systemEdges_buildGraph in He.
    apply edgesInOrder_In in He as [(_ & _ & He) | (item & Hi & He)].
    + unfold relationEdges in He.
      apply in_map_iff in He as (t & <- & Ht). cbn [to].
      rewrite nodeIds_eq. right. apply in_or_app. left.
      now apply in_map.
    + apply itemEdges_In_iff in He as (r & lbl & Hr & Hl & ->). cbn [to].
      specialize (H item Hi). rewrite forallb_forall in H.
      specialize (H r Hr). unfold handledRelation in H. rewrite Hl in H.
      cbn [negb orb] in H.
      apply existsb_exists in H as (x & Hx & Heq).
      apply String.eqb_eq in Heq. now rewrite Heq.
  - intros H item Hi. apply forallb_forall. intros r Hr.
    destruct (handledRelation r) eqn:Hh; [|reflexivity].
    cbn [negb orb]. unfold handledRelation in Hh.
    destruct (relationLabel (type r)) as [lbl|] eqn:Hl; [|discriminate].
    apply existsb_exists. exists (targetId (target r)).
    split; [|apply String.eqb_refl].
    apply (H (mkEdge (entityId item) (targetId (target r)) lbl)).
    rewrite systemEdges_buildGraph. unfold edgesInOrder.
    apply in_or_app. right. apply in_flat_map. exists item.
    split; [assumption|]. apply itemEdges_In_iff. eauto.
Qed.

(** ** Ids are lowercase and tell well-formed refs apart *)

Lemma lowerChar_idem c : Js.lowerChar (Js.lowerChar c) = Js.lowerChar c.
Proof.
  destruct c as [[] [] [] [] [] [] [] []]; reflexivity.
Qed.

Lemma toLocaleLowerCase_idem s :
  Js.toLocaleLowerCase (Js.toLocaleLowerCase s) = Js.toLocaleLowerCase s.
Proof.
  induction s as [|c s IH]; unfold_js; [reflexivity|].
  now rewrite lowerChar_idem, IH.
Qed.

Lemma startsWith_lower_rest p s rest :
  Js.startsWith p s = Some rest ->
  Js.toLocaleLowerCase s = s ->
  Js.toLocaleLowerCase rest = rest.
Proof.
  revert s; induction p as [|a p IH]; intros s; cbn [Js.startsWith].
  - now intros [= ->].
  - destruct s as [|b s]; [discriminate|].
    destruct (Ascii.eqb a b); [|discriminate].
    intros H Hs. cbn [Js.toLocaleLowerCase] in Hs.
    injection Hs as _ Hs. now apply (IH s).
Qed.

Lemma replace_lower pat rep s :
  Js.toLocaleLowerCase rep = rep ->
  Js.toLocaleLowerCase s = s ->
  Js.toLocaleLowerCase (Js.replace pat rep s) = Js.replace pat rep s.
Proof.
  intros Hrep. induction s as [|c s IH]; intros Hs.
  - cbn [Js.replace]. destruct (Js.startsWith pat "") as [rest|] eqn:E.
    + rewrite toLocaleLowerCase_app, Hrep.
      now rewrite (startsWith_lower_rest _ _ _ E Hs).
    + reflexivity.
  - cbn [Js.replace].
    destruct (Js.startsWith pat (String c s)) as [rest|] eqn:E.
    + rewrite toLocaleLowerCase_app, Hrep.
      now rewrite (startsWith_lower_rest _ _ _ E Hs).
    + cbn [Js.toLocaleLowerCase] in *. injection Hs as Hc Hs.
      now rewrite Hc, (IH Hs).
Qed.

Lemma simplifiedEntityName_lower ref :
  Js.toLocaleLowerCase (simplifiedEntityName ref) = simplifiedEntityName ref.
Proof.
  unfold simplifiedEntityName.
  apply replace_lower; [reflexivity | apply toLocaleLowerCase_idem].
Qed.

(** A string is cut at the first occurrence of a character in one way. *)
Lemma split_at_char c a a' b b' :
  Js.includes c a = false ->
  Js.includes c a' = false ->
  a ++ String c b = a' ++ String c b' ->
  a = a' /\ b = b'.
Proof.
  revert a'; induction a as [|x a IH]; intros [|y a'] Ha Ha' E;
    cbn [String.append Js.includes] in *.
  - injection E as E. now split.
  - injection E as Ec _. subst y.
    rewrite Ascii.eqb_refl in Ha'. discriminate.
  - injection E as Ec _. subst x.
    rewrite Ascii.eqb_refl in Ha. discriminate.
  - injection E as Exy E. subst y.
    apply orb_false_iff in Ha as [_ Ha].
    apply orb_false_iff in Ha' as [_ Ha'].
    destruct (IH a' Ha Ha' E) as [-> ->]. now split.
Qed.

Lemma wellFormedRef_lower ref :
  wellFormedRef ref = true ->
  Js.includes ":" (Js.toLocaleLowerCase (refKind ref)) = false
  /\ Js.includes "/" (Js.toLocaleLowerCase (namespaceOrDefault ref)) = false
  /\ Js.includes "/" (Js.toLocaleLowerCase (refName ref)) = false.
Proof.
  unfold wellFormedRef, noSeparator. intros H.
  apply andb_true_iff in H as [H Hn].
  apply andb_true_iff in H as [Hk Hns].
  apply andb_true_iff in Hn as [_ Hn].
  apply andb_true_iff in Hk as [Hk _].
  apply andb_true_iff in Hns as [_ Hns].
  apply negb_true_iff in Hn, Hk, Hns.
  now rewrite includes_colon_lower, !includes_slash_lower.
Qed.

Lemma simplifiedEntityName_refKey r1 r2 :
  wellFormedRef r1 = true ->
  wellFormedRef r2 = true ->
  simplifiedEntityName r1 = simplifiedEntityName r2 <-> refKey r1 = refKey r2.
Proof.
  intros H1 H2.
  rewrite (simplifiedEntityName_parts r1 H1),
          (simplifiedEntityName_parts r2 H2).
  destruct (wellFormedRef_lower r1 H1) as (Hk1 & Hs1 & Hn1).
  destruct (wellFormedRef_lower r2 H2) as (Hk2 & Hs2 & Hn2).
  unfold refKey.
  set (k1 := Js.toLocaleLowerCase (refKind r1)) in *.
  set (k2 := Js.toLocaleLowerCase (refKind r2)) in *.
  set (s1 := Js.toLocaleLowerCase (namespaceOrDefault r1)) in *.
  set (s2 := Js.toLocaleLowerCase (namespaceOrDefault r2)) in *.
  set (n1 := Js.toLocaleLowerCase (refName r1)) in *.
  set (n2 := Js.toLocaleLowerCase (refName r2)) in *.
  split.
  - intros E.
    change (k1 ++ String ":"
              ((if String.eqb s1 ENTITY_DEFAULT_NAMESPACE
                then "" else s1 ++ "/") ++ n1)
            = k2 ++ String ":"
                ((if String.eqb s2 ENTITY_DEFAULT_NAMESPACE
                  then "" else s2 ++ "/") ++ n2)) in E.
    apply split_at_char in E as [-> E]; [|assumption|assumption].
    destruct (String.eqb_spec s1 ENTITY_DEFAULT_NAMESPACE) as [D1 | D1];
      destruct (String.eqb_spec s2 ENTITY_DEFAULT_NAMESPACE) as [D2 | D2];
      cbn [String.append] in E.
    + now rewrite D1, D2, E.
    + apply (f_equal (Js.includes "/")) in E.
      rewrite !includes_app, Hn1 in E. cbn [Js.includes] in E.
      rewrite Ascii.eqb_refl, orb_true_r in E. discriminate.
    + apply (f_equal (Js.includes "/")) in E.
      rewrite !includes_app, Hn2 in E. cbn [Js.includes] in E.
      rewrite Ascii.eqb_refl, orb_true_r in E. discriminate.
    + rewrite !string_app_assoc in E.
      apply split_at_char in E as [-> ->]; [reflexivity | assumption..].
  - now intros [= -> -> ->].
Qed.

Lemma NoDup_map_transfer {A B C : Type} (f : A -> B) (g : A -> C) l :
  (forall x y, In x l -> In y l -> g x = g y -> f x = f y) ->
  NoDup (map f l) -> NoDup (map g l).
Proof.
  induction l as [|a l IH]; intros Hfg; cbn [map]; [constructor|].
  intros H. apply NoDup_cons_iff in H as [Ha H]. constructor.
  - intros Hg. apply Ha.
    apply in_map_iff in Hg as (y & Hy & Hin).
    apply in_map_iff. exists y. split; [|assumption].
    apply Hfg; [now right | now left | assumption].
  - apply IH; [|assumption].
    intros x y Hx Hy. apply Hfg; now right.
Qed.

Lemma nodeIds_nodeRefs rootEntity relatedEntities :
  nodeIds rootEntity relatedEntities
  = map simplifiedEntityName (nodeRefs rootEntity relatedEntities).
Proof.
  rewrite nodeIds_eq. unfold nodeRefs. cbn [map].
  now rewrite map_app, !map_map.
Qed.

(** X10: an id is always lowercase, whatever the ref, and so is every node
    id and both ends of every edge of the graph. *)
Theorem ids_lowercase :
  (forall ref,
      Js.toLocaleLowerCase (simplifiedEntityName ref)
      = simplifiedEntityName ref)
  /\ forall rootEntity relatedEntities,
       Forall (fun n => Js.toLocaleLowerCase (id n) = id n)
              (systemNodes (buildGraph rootEntity relatedEntities))
       /\ Forall (fun e => Js.toLocaleLowerCase (from e) = from e
                           /\ Js.toLocaleLowerCase (to e) = to e)
                 (systemEdges (buildGraph rootEntity relatedEntities)).
Proof.
  split; [exact simplifiedEntityName_lower|].
  intros rootEntity relatedEntities. rewrite buildGraph_eq.
  cbn [systemNodes systemEdges]. split.
  - unfold nodesInOrder. constructor; [apply simplifiedEntityName_lower|].
    apply Forall_app. split; apply Forall_map, Forall_forall;
      intros x _; apply simplifiedEntityName_lower.
  - apply Forall_forall. intros e He.
    apply edgesInOrder_In in He as [(_ & _ & He) | (item & _ & He)].
    + unfold relationEdges in He. apply in_map_iff in He as (t & <- & _).
      split; apply simplifiedEntityName_lower.
    + apply itemEdges_In_iff in He as (r & lbl & _ & _ & ->).
      split; apply simplifiedEntityName_lower.
Qed.

(** X11: on well-formed refs the id forgets the case of the letters and
    whether the default namespace is written out, and nothing else: two refs
    have the same id exactly when kind, namespace and name agree once
    lower-cased. *)
Theorem simplifiedEntityName_eq_iff r1 r2 :
  wellFormedRef r1 = true ->
  wellFormedRef r2 = true ->
  simplifiedEntityName r1 = simplifiedEntityName r2
  <-> Js.toLocaleLowerCase (refKind r1) = Js.toLocaleLowerCase (refKind r2)
      /\ Js.toLocaleLowerCase (namespaceOrDefault r1)
         = Js.toLocaleLowerCase (namespaceOrDefault r2)
      /\ Js.toLocaleLowerCase (refName r1)
         = Js.toLocaleLowerCase (refName r2).
Proof.
  intros H1 H2. rewrite (simplifiedEntityName_refKey r1 r2 H1 H2).
  unfold refKey. split.
  - now intros [= -> -> ->].
  - now intros (-> & -> & ->).
Qed.

Lemma simplifiedEntityName_eq_iff_witness :
  simplifiedEntityName (OfName "API" None "Invoices")
  = simplifiedEntityName (OfName "api" (Some "Default") "invoices").
Proof.
  apply (simplifiedEntityName_eq_iff
           (OfName "API" None "Invoices")
           (OfName "api" (Some "Default") "invoices")
           eq_refl eq_refl).
  repeat split.
Defined.

(** X12: on well-formed refs the graph has a node twice exactly when two of
    the refs it makes nodes from (the system, its domains, the related
    entities) agree up to case and default namespace. *)
Theorem nodeIds_NoDup_iff rootEntity relatedEntities :
  forallb wellFormedRef (nodeRefs rootEntity relatedEntities) = true ->
  NoDup (nodeIds rootEntity relatedEntities)
  <-> NoDup (map refKey (nodeRefs rootEntity relatedEntities)).
Proof.
  intros H. rewrite forallb_forall in H. rewrite nodeIds_nodeRefs.
  split; apply NoDup_map_transfer; intros x y Hx Hy E;
    now apply (simplifiedEntityName_refKey x y (H x Hx) (H y Hy)).
Qed.

Lemma nodeIds_NoDup_iff_witness :
  NoDup (nodeIds paymentsInRetail [checkout]).
Proof.
  apply (nodeIds_NoDup_iff paymentsInRetail [checkout] eq_refl).
  vm_compute.
  repeat (constructor; [simpl; intuition discriminate|]).
  constructor.
Defined.
